(** * The Bearer-token gate of the hot-updater Express server

    A shallow embedding of [authMiddleware], the Express middleware that
    guards the administrative endpoints mounted under [/hot-updater/api],
    together with the JavaScript and Express operations it calls.

    The gate reads [req.headers.authorization] and [process.env.API_KEY] and
    then either answers through [res] or hands over to [next].  [res] and
    [next] belong to Express; they are modelled by the log of the calls the
    gate makes on them. *)

From stdpp Require Import gmap strings list.
From Stdlib Require Import ZArith Ascii.

Local Open Scope Z_scope.

(** ** JavaScript values *)

Module Js.

(** A value of type [string | undefined]: [None] is [undefined].  Header
    values reach Node decoded as Latin-1, one character per byte, so a
    string is a sequence of bytes; a secret holding a character beyond
    Latin-1 equals no header token and is left out of the model. *)
Definition value := option string.

(** [ToBoolean]: [undefined] and the empty string are falsy, every other
    string is truthy. *)
Definition truthy (v : value) : bool :=
  match v with
  | None => false
  | Some s => negb (bool_decide (s = ""))
  end.

(** [a !== b] on [string | undefined]: strings are equal when they hold the
    same characters, [undefined] only equals [undefined]. *)
Definition strict_ne (a b : value) : bool := negb (bool_decide (a = b)).

(** [s.split(sep)] for a one-character separator, which is how the gate
    calls it: the string is cut at every occurrence of [sep], empty pieces
    are kept, and a string without [sep] (the empty one too) is its own
    single piece. *)
Fixpoint split (sep : ascii) (s : string) : list string :=
  match s with
  | EmptyString => [EmptyString]
  | String c s' =>
      if bool_decide (c = sep) then EmptyString :: split sep s'
      else match split sep s' with
           | piece :: pieces => String c piece :: pieces
           | [] => [String c EmptyString]
           end
  end.

(** [arr[i]]: [undefined] past the end of the array. *)
Definition index (arr : list string) (i : nat) : value := arr !! i.

End Js.

(** ** Express: the request, and the calls made on [res] and [next] *)

Module Express.

(** The part of [express.Request] a middleware can look at here.  Node
    stores header names in lower case, each with one string value. *)
Record Request := {
  method : string;
  url : string;
  headers : gmap string string
}.

(** The JSON documents the gate sends. *)
#[warnings="-register-all"] Inductive Json :=
| JString (s : string)
| JObject (fields : list (string * Json)).

(** A call on the response object or on the continuation. *)
Inductive Call :=
| ResStatus (code : Z)
| ResJson (body : Json)
| Next.

(** What a middleware run can read and touch: the process environment, the
    request, and the calls made so far on [res] and [next]. *)
Record World := {
  env : gmap string string;
  req : Request;
  calls : list Call
}.

Definition call (c : Call) (w : World) : World :=
  {| env := env w; req := req w; calls := calls w ++ [c] |}.

(** [res.status(code)], [res.json(body)] and [next()]. *)
Definition status (code : Z) : World → World := call (ResStatus code).
Definition json (body : Json) : World → World := call (ResJson body).
Definition next : World → World := call Next.

End Express.

Import Express.

(** ** The gate *)

(** The object literal [{ error: msg }]. *)
Definition error (msg : string) : Json := JObject [("error", JString msg)].

Definition authMiddleware (w : World) : World :=
  let authHeader : Js.value := headers (req w) !! "authorization" in
  if negb (Js.truthy authHeader) then
    json (error "Missing authorization header") (status 401 w)
  else
    let token : Js.value :=
      h ← authHeader; Js.index (Js.split " "%char h) 1 in
    if negb (Js.truthy token) then
      json (error "Invalid authorization header format") (status 401 w)
    else if Js.strict_ne token (env w !! "API_KEY") then
      json (error "Invalid API key") (status 403 w)
    else
      next w.

(** ** Outcomes *)

Inductive Outcome :=
| Allowed
| MissingHeader
| MalformedHeader
| InvalidToken.

#[global] Instance Outcome_eq_dec : EqDecision Outcome.
Proof. solve_decision. Defined.

(** The calls that make up each outcome. *)
Definition performs (o : Outcome) : list Call :=
  match o with
  | Allowed => [Next]
  | MissingHeader =>
      [ResStatus 401; ResJson (error "Missing authorization header")]
  | MalformedHeader =>
      [ResStatus 401; ResJson (error "Invalid authorization header format")]
  | InvalidToken =>
      [ResStatus 403; ResJson (error "Invalid API key")]
  end.

(** The world after a run with outcome [o]: the environment and the request
    as they were, the calls of [o] added to the log. *)
Definition after (o : Outcome) (w : World) : World :=
  {| env := env w; req := req w; calls := calls w ++ performs o |}.

(** A run with outcome [o]. *)
Definition outcome (w : World) (o : Outcome) : Prop :=
  authMiddleware w = after o w.

(** A world whose request carries the given [Authorization] header, if any,
    and whose environment holds the given secret, if any. *)
Definition world_of (authorization secret : option string) : World :=
  {| env := from_option (λ s, {[ "API_KEY" := s ]}) ∅ secret;
     req := {| method := "POST"; url := "/hot-updater/api/bundles";
               headers := from_option (λ h, {[ "authorization" := h ]}) ∅
                            authorization |};
     calls := [] |}.

(** ** Reading the split pieces back *)

(** [pieces.join(sep)], the inverse of [split]. *)
Fixpoint join (sep : ascii) (pieces : list string) : string :=
  match pieces with
  | [] => ""
  | [piece] => piece
  | piece :: rest => piece +:+ String sep (join sep rest)
  end.

(** Does the character occur in the string? *)
Fixpoint occurs (c : ascii) (s : string) : bool :=
  match s with
  | EmptyString => false
  | String c' s' => bool_decide (c' = c) || occurs c s'
  end.

(** The outcome as a function of the two values the gate looks up. *)
Definition verdict (authorization secret : option string) : Outcome :=
  match authorization with
  | None | Some "" => MissingHeader
  | Some h =>
      match Js.split " "%char h !! 1%nat with
      | None | Some "" => MalformedHeader
      | Some t => if decide (secret = Some t) then Allowed else InvalidToken
      end
  end.

(** Set or remove one key of a JavaScript object used as a map. *)
Definition assign (k : string) (v : option string)
    (m : gmap string string) : gmap string string :=
  match v with
  | Some s => <[k := s]> m
  | None => delete k m
  end.

(** The world [w] with the two values the gate looks up replaced. *)
Definition with_inputs (authorization secret : option string)
    (w : World) : World :=
  {| env := assign "API_KEY" secret (env w);
     req := {| method := method (req w); url := url (req w);
               headers := assign "authorization" authorization
                            (headers (req w)) |};
     calls := calls w |}.

(** The number of times the downstream handler has been started. *)
Definition is_next (c : Call) : bool :=
  match c with Next => true | _ => false end.

Definition next_calls (w : World) : nat :=
  length (filter (λ c, is_next c) (calls w)).

(** The spec's wording: the whitespace-separated tokens of a header (blanks,
    tabs and line breaks separate, runs of them count once). *)
Definition whitespace_tokens (h : string) : list string := String.words h.

Definition tab : ascii := "009"%char.

(** What follows the first occurrence of [c] in [s], if [c] occurs. *)
Fixpoint after_first (c : ascii) (s : string) : option string :=
  match s with
  | EmptyString => None
  | String c' s' => if bool_decide (c' = c) then Some s' else after_first c s'
  end.

(** A header without a second piece to read: it holds no space, or its first
    space is its last character or is followed at once by another space. *)
Definition lacks_token (h : string) : bool :=
  match after_first " " h with
  | None | Some EmptyString => true
  | Some (String c _) => bool_decide (c = " "%char)
  end.

(** Concrete worlds used below. *)
Definition three_piece_world : World :=
  world_of (Some "Bearer s3cr3t extra") (Some "s3cr3t").

Definition three_piece_wrong_world : World :=
  world_of (Some "Bearer wrong extra") (Some "s3cr3t").

Definition tab_header : string := "Bearer" +:+ String tab "s3cr3t".

Definition tab_world : World := world_of (Some tab_header) (Some "s3cr3t").

Definition two_blanks_world : World :=
  world_of (Some "Bearer  s3cr3t") (Some "s3cr3t").

Definition bearer_world : World :=
  world_of (Some "Bearer s3cr3t") (Some "s3cr3t").

Definition wrong_world : World :=
  world_of (Some "Bearer wrong") (Some "s3cr3t").

Definition bare_world : World := world_of (Some "s3cr3t") (Some "s3cr3t").

Definition no_header_world : World := world_of None (Some "s3cr3t").

Definition empty_header_world : World := world_of (Some "") (Some "s3cr3t").

Definition no_secret_world : World := world_of (Some "Bearer s3cr3t") None.

Definition busy_world : World :=
  {| env := {[ "API_KEY" := "s3cr3t"; "PORT" := "3000" ]};
     req := {| method := "DELETE"; url := "/hot-updater/api/bundles/42";
               headers := {[ "authorization" := "Bearer s3cr3t";
                             "host" := "localhost:3000" ]} |};
     calls := [ResStatus 200] |}.

(** ** The deployment tool's side *)

(** [`${v}`] inside a template literal: [undefined] is printed as the word
    "undefined", a string as itself. *)
Definition template (v : Js.value) : string := from_option id "undefined" v.

(** The [commonHeaders] object of the deployment tool's configuration, built
    from the tool's own environment. *)
Definition commonHeaders (client_env : gmap string string)
    : gmap string string :=
  {[ "Authorization" :=
       "Bearer " +:+ template (client_env !! "HOT_UPDATER_API_KEY") ]}.

(** The number of occurrences of a character in a string. *)
Fixpoint count_char (c : ascii) (s : string) : nat :=
  match s with
  | EmptyString => 0%nat
  | String c' s' => ((if bool_decide (c' = c) then 1 else 0) + count_char c s')%nat
  end.

Definition basic_world : World :=
  world_of (Some "Basic s3cr3t") (Some "s3cr3t").

Definition spaced_secret_world : World :=
  world_of (Some "Bearer my key") (Some "my key").

Definition deploy_env : gmap string string :=
  {[ "HOT_UPDATER_API_KEY" := "s3cr3t";
     "HOT_UPDATER_SERVER_URL" := "http://localhost:3000/hot-updater" ]}.

(** * Properties *)

(** ** [split] and [join] *)

Section split_join.
Variable sep : ascii.

Lemma split_not_nil (s : string) : Js.split sep s ≠ [].
Proof.
  destruct s as [|c s]; simpl; [done|].
  case_bool_decide; [done|]. by destruct (Js.split sep s).
Qed.

Lemma split_free (s : string) :
  occurs sep s = false → Js.split sep s = [s].
Proof.
  induction s as [|c s IH]; simpl; [done|].
  intros [Hc Hs]%orb_false_iff.
  rewrite Hc, (IH Hs). done.
Qed.

Lemma split_app_sep (a b : string) :
  occurs sep a = false →
  Js.split sep (a +:+ String sep b) = a :: Js.split sep b.
Proof.
  induction a as [|c a IH]; simpl.
  - intros _. by rewrite bool_decide_eq_true_2.
  - intros [Hc Ha]%orb_false_iff. by rewrite Hc, (IH Ha).
Qed.

Lemma split_join (pieces : list string) :
  Forall (λ p, occurs sep p = false) pieces → pieces ≠ [] →
  Js.split sep (join sep pieces) = pieces.
Proof.
  induction 1 as [|p ps Hp Hps IH]; [done|]. intros _.
  destruct ps as [|q ps]; simpl.
  - by apply split_free.
  - rewrite split_app_sep by done. f_equal. by apply IH.
Qed.

Lemma split_pieces_free (s : string) :
  Forall (λ p, occurs sep p = false) (Js.split sep s).
Proof.
  induction s as [|c s IH]; simpl.
  - by constructor.
  - case_bool_decide as Hc.
    + by constructor.
    + destruct (Js.split sep s) as [|p ps]; inversion IH; subst.
      * constructor; [|done]. simpl. by rewrite bool_decide_eq_false_2.
      * constructor; [|done]. simpl. by rewrite bool_decide_eq_false_2.
Qed.

Lemma join_split (s : string) : join sep (Js.split sep s) = s.
Proof.
  induction s as [|c s IH]; simpl; [done|].
  case_bool_decide as Hc.
  - subst c. pose proof (split_not_nil s).
    destruct (Js.split sep s) as [|p ps]; [done|].
    by rewrite <- IH.
  - pose proof (split_not_nil s).
    destruct (Js.split sep s) as [|p ps]; [done|].
    rewrite <- IH. by destruct ps.
Qed.

End split_join.

(** ** The gate as a function of its two inputs *)

Section gate.
Implicit Types (w : World) (o : Outcome) (h t : string).
#[local] Arguments Js.split : simpl never.

Lemma respond_calls (code : Z) (msg : string) w :
  json (error msg) (status code w)
  = {| env := env w; req := req w;
       calls := calls w ++ [ResStatus code; ResJson (error msg)] |}.
Proof. unfold json, status, call. simpl. by rewrite <- app_assoc. Qed.

Lemma authMiddleware_verdict w :
  authMiddleware w
  = after (verdict (headers (req w) !! "authorization") (env w !! "API_KEY")) w.
Proof.
  unfold authMiddleware, verdict, after.
  destruct (headers (req w) !! "authorization") as [[|c h]|]; simpl;
    try apply respond_calls.
  unfold Js.index.
  destruct (Js.split " " (String c h) !! 1%nat) as [[|c' t]|]; simpl;
    try apply respond_calls.
  unfold Js.strict_ne.
  case_bool_decide as Heq; case_decide as Hdec; simpl;
    try congruence; try apply respond_calls.
  reflexivity.
Qed.

Lemma performs_inj o o' : performs o = performs o' → o = o'.
Proof. destruct o, o'; simpl; intros ?; simplify_eq; done. Qed.

Lemma after_inj w o o' : after o w = after o' w → o = o'.
Proof.
  unfold after. intros Heq. apply performs_inj.
  injection Heq as Heq. by apply app_inv_head in Heq.
Qed.

Lemma outcome_verdict w o :
  outcome w o
  ↔ o = verdict (headers (req w) !! "authorization") (env w !! "API_KEY").
Proof.
  unfold outcome. rewrite authMiddleware_verdict. split.
  - intros Heq. symmetry. by apply after_inj in Heq.
  - by intros ->.
Qed.

Lemma next_calls_after w o :
  next_calls (after o w)
  = (next_calls w + if decide (o = Allowed) then 1 else 0)%nat.
Proof.
  unfold next_calls, after. simpl.
  rewrite filter_app, length_app. by destruct o.
Qed.

Lemma lookup_assign (k : string) (v : option string)
    (m : gmap string string) :
  assign k v m !! k = v.
Proof.
  destruct v; simpl; [apply lookup_insert_eq | apply lookup_delete_eq].
Qed.

Lemma outcome_with_inputs (a s : option string) w :
  outcome (with_inputs a s w) (verdict a s).
Proof.
  apply outcome_verdict. simpl. by rewrite !lookup_assign.
Qed.

End gate.

(** ** The second piece of a header *)

Section second_piece.
Variable sep : ascii.

Lemma split_second (s : string) :
  Js.split sep s !! 1%nat = r ← after_first sep s; head (Js.split sep r).
Proof.
  induction s as [|c s IH]; simpl; [done|].
  case_bool_decide as Hc; simpl.
  - by destruct (Js.split sep s).
  - rewrite <- IH. by destruct (Js.split sep s) as [|p [|q ps]].
Qed.

Lemma split_head_empty (r : string) :
  head (Js.split sep r) = Some ""
  ↔ r = "" ∨ ∃ r', r = String sep r'.
Proof.
  destruct r as [|c r]; simpl.
  - naive_solver.
  - case_bool_decide as Hc; simpl.
    + subst c. naive_solver.
    + split; [by destruct (Js.split sep r)|].
      intros [?|[r' ?]]; [done|congruence].
Qed.

End second_piece.

Lemma lacks_token_split (h : string) :
  lacks_token h = true
  ↔ Js.split " " h !! 1%nat = None ∨ Js.split " " h !! 1%nat = Some "".
Proof.
  rewrite split_second. unfold lacks_token.
  destruct (after_first " " h) as [r|]; simpl; [|naive_solver].
  rewrite split_head_empty.
  pose proof (split_not_nil " " r) as Hnil.
  destruct r as [|c r]; [naive_solver|].
  rewrite bool_decide_eq_true. split.
  - intros ->. right. right. eauto.
  - intros [Hnone|[?|[r' ?]]]; simplify_eq; [|done].
    by destruct (Js.split " " (String c r)).
Qed.

(** ** The gate's decisions *)

Section decisions.
Implicit Types (w : World) (o : Outcome) (h t : string).
#[local] Arguments Js.split : simpl never.

Lemma verdict_token (h t : string) (secret : option string) :
  Js.index (Js.split " " h) 1 = Some t → t ≠ "" →
  verdict (Some h) secret
  = if decide (secret = Some t) then Allowed else InvalidToken.
Proof.
  unfold Js.index. intros Ht Hne.
  destruct h as [|c h]; [done|]. simpl. rewrite Ht.
  by destruct t.
Qed.

Lemma verdict_no_token (h : string) (secret : option string) :
  h ≠ "" → lacks_token h = true → verdict (Some h) secret = MalformedHeader.
Proof.
  intros Hne Hlack. destruct h as [|c h]; [done|]. simpl.
  apply lacks_token_split in Hlack as [-> | ->]; done.
Qed.

Lemma verdict_no_secret (a : option string) : verdict a None ≠ Allowed.
Proof.
  destruct a as [[|c h]|]; simpl; try done.
  by destruct (Js.split " " (String c h) !! 1%nat) as [[|c' t]|].
Qed.

Lemma outcome_unique w o o' : outcome w o → outcome w o' → o = o'.
Proof. intros ->%outcome_verdict ->%outcome_verdict. done. Qed.

Lemma outcome_total w : ∃ o, outcome w o.
Proof. eexists. by apply outcome_verdict. Qed.

(** C3: when the token read from the header (the second piece, present and
    not empty) holds exactly the characters of the configured secret, the
    gate calls [next] and does nothing else: the request, the environment
    and the response are as they were. *)
Theorem matching_token_allowed w h t :
  headers (req w) !! "authorization" = Some h →
  Js.index (Js.split " " h) 1 = Some t → t ≠ "" →
  env w !! "API_KEY" = Some t →
  authMiddleware w = next w
  ∧ outcome w Allowed
  ∧ req (authMiddleware w) = req w
  ∧ calls (authMiddleware w) = calls w ++ [Next].
Proof.
  intros Hh Ht Hne Hkey.
  assert (authMiddleware w = next w) as Hrun.
  { rewrite authMiddleware_verdict, Hh, Hkey, (verdict_token h t) by done.
    by rewrite decide_True. }
  split; [done|]. split; [exact Hrun|]. by rewrite Hrun.
Qed.

(** C4: when a token is read from the header (the second piece, present
    and not empty) and the configured secret is not that very string, or no
    secret is configured, the gate answers 403 with the error "Invalid API
    key". *)
Theorem other_token_forbidden w h t :
  headers (req w) !! "authorization" = Some h →
  Js.index (Js.split " " h) 1 = Some t → t ≠ "" →
  env w !! "API_KEY" ≠ Some t →
  authMiddleware w = json (error "Invalid API key") (status 403 w)
  ∧ outcome w InvalidToken.
Proof.
  intros Hh Ht Hne Hkey.
  assert (outcome w InvalidToken) as Hrun.
  { apply outcome_verdict. rewrite Hh, (verdict_token h t) by done.
    by rewrite decide_False. }
  split; [|done]. rewrite Hrun. symmetry. apply respond_calls.
Qed.

(** C5: a request without an [Authorization] header is answered 401 with
    the error "Missing authorization header"; the secret plays no part: the
    same calls are made under every environment. *)
Theorem missing_header_rejected w :
  headers (req w) !! "authorization" = None →
  authMiddleware w
  = json (error "Missing authorization header") (status 401 w)
  ∧ outcome w MissingHeader
  ∧ ∀ e, calls (authMiddleware {| env := e; req := req w; calls := calls w |})
         = calls (authMiddleware w).
Proof.
  intros Hh.
  assert (∀ e, outcome {| env := e; req := req w; calls := calls w |}
                 MissingHeader) as Hany.
  { intros e. apply outcome_verdict. simpl. by rewrite Hh. }
  assert (outcome w MissingHeader) as Hrun.
  { apply outcome_verdict. by rewrite Hh. }
  split; [|split; [done|]].
  - rewrite Hrun. symmetry. apply respond_calls.
  - intros e. by rewrite (Hany e), Hrun.
Qed.

(** C10: an [Authorization] header that is the empty string is answered as
    a missing header (401, "Missing authorization header"), not as a
    malformed one. *)
Theorem empty_header_is_missing w :
  headers (req w) !! "authorization" = Some "" →
  authMiddleware w
  = json (error "Missing authorization header") (status 401 w)
  ∧ outcome w MissingHeader
  ∧ ¬ outcome w MalformedHeader.
Proof.
  intros Hh.
  assert (outcome w MissingHeader) as Hrun.
  { apply outcome_verdict. by rewrite Hh. }
  split; [|split; [done|]].
  - rewrite Hrun. symmetry. apply respond_calls.
  - intros Hbad. by pose proof (outcome_unique _ _ _ Hrun Hbad).
Qed.

(** C9: when [API_KEY] is not set, no request is allowed: every run ends in
    one of the three rejections and [next] is not called. *)
Theorem no_secret_rejects_all w :
  env w !! "API_KEY" = None →
  ¬ outcome w Allowed
  ∧ (outcome w MissingHeader ∨ outcome w MalformedHeader
     ∨ outcome w InvalidToken)
  ∧ next_calls (authMiddleware w) = next_calls w.
Proof.
  intros Hkey.
  pose proof (verdict_no_secret (headers (req w) !! "authorization")) as Hv.
  pose proof (authMiddleware_verdict w) as Hrun.
  rewrite Hkey in Hrun. split; [|split].
  - intros Ha%outcome_verdict. by rewrite Hkey in Ha.
  - unfold outcome. rewrite Hrun.
    destruct (verdict _ None); [done|auto..].
  - rewrite Hrun, next_calls_after. rewrite decide_False by done. lia.
Qed.

End decisions.

(** ** Outcomes of a run *)

Section outcomes.
Implicit Types (w : World) (o : Outcome).

Lemma rejection_calls o :
  o ≠ Allowed →
  ∃ code msg, (code = 401 ∨ code = 403)
              ∧ performs o = [ResStatus code; ResJson (error msg)].
Proof. destruct o; [done|simpl; eauto 6..]. Qed.

(** C6: every run ends in exactly one of the four outcomes.  An allowed
    run calls [next] once and sends nothing; a rejected run sets a status
    (401 or 403), sends one JSON object with an [error] field, and does not
    call [next].  Nothing else is added to the log: the gate decides once. *)
Theorem one_terminal_outcome w :
  ∃ o, outcome w o
       ∧ (∀ o', outcome w o' → o' = o)
       ∧ calls (authMiddleware w) = calls w ++ performs o
       ∧ (o = Allowed →
          next_calls (authMiddleware w) = S (next_calls w))
       ∧ (o ≠ Allowed →
          next_calls (authMiddleware w) = next_calls w
          ∧ ∃ code msg,
              (code = 401 ∨ code = 403)
              ∧ calls (authMiddleware w)
                = calls w ++ [ResStatus code; ResJson (error msg)]).
Proof.
  destruct (outcome_total w) as [o Ho]. exists o.
  split; [done|]. split; [|split; [|split]].
  - intros o' Ho'. by apply (outcome_unique w).
  - by rewrite Ho.
  - intros ->. rewrite Ho, next_calls_after. rewrite decide_True by done. lia.
  - intros Hrej. split.
    + rewrite Ho, next_calls_after. rewrite decide_False by done. lia.
    + destruct (rejection_calls o Hrej) as (code & msg & Hcode & Hcalls).
      exists code, msg. split; [done|]. by rewrite Ho, <- Hcalls.
Qed.

(** C7: with the secret "s3cr3t", whatever else the request and the
    environment hold: "Bearer s3cr3t" is allowed, "Bearer wrong" is an
    invalid token, no header is a missing header, and "s3cr3t" alone is a
    malformed header. *)
Theorem scenario_s3cr3t w :
  outcome (with_inputs (Some "Bearer s3cr3t") (Some "s3cr3t") w) Allowed
  ∧ outcome (with_inputs (Some "Bearer wrong") (Some "s3cr3t") w) InvalidToken
  ∧ outcome (with_inputs None (Some "s3cr3t") w) MissingHeader
  ∧ outcome (with_inputs (Some "s3cr3t") (Some "s3cr3t") w) MalformedHeader.
Proof.
  repeat split.
  - exact (outcome_with_inputs (Some "Bearer s3cr3t") (Some "s3cr3t") w).
  - exact (outcome_with_inputs (Some "Bearer wrong") (Some "s3cr3t") w).
  - exact (outcome_with_inputs None (Some "s3cr3t") w).
  - exact (outcome_with_inputs (Some "s3cr3t") (Some "s3cr3t") w).
Qed.

(** C8: two runs that see the same [Authorization] header (or none) and the
    same secret (or none) end in the same outcome and make the same calls,
    whatever else differs between the two requests and environments; a run
    leaves the environment and the request as they were. *)
Theorem same_inputs_same_outcome w1 w2 :
  headers (req w1) !! "authorization" = headers (req w2) !! "authorization" →
  env w1 !! "API_KEY" = env w2 !! "API_KEY" →
  (∃ o, outcome w1 o ∧ outcome w2 o
        ∧ calls (authMiddleware w1) = calls w1 ++ performs o
        ∧ calls (authMiddleware w2) = calls w2 ++ performs o)
  ∧ env (authMiddleware w1) = env w1 ∧ req (authMiddleware w1) = req w1
  ∧ env (authMiddleware w2) = env w2 ∧ req (authMiddleware w2) = req w2.
Proof.
  intros Hh Hkey.
  pose proof (authMiddleware_verdict w1) as H1.
  pose proof (authMiddleware_verdict w2) as H2.
  rewrite Hh, Hkey in H1.
  split; [|by rewrite H1, H2].
  eexists. unfold outcome. rewrite H1, H2. done.
Qed.

End outcomes.

(** ** Which headers are malformed, and which token is compared *)

Section header_shape.
Implicit Types (w : World) (h t : string).
#[local] Arguments Js.split : simpl never.

Lemma malformed_iff_lacks_token w h :
  headers (req w) !! "authorization" = Some h → h ≠ "" →
  outcome w MalformedHeader ↔ lacks_token h = true.
Proof.
  intros Hh Hne. rewrite outcome_verdict, Hh. split.
  - intros Hv. apply lacks_token_split.
    destruct h as [|c h]; [done|]. simpl in Hv. unfold Js.index.
    destruct (Js.split " " (String c h) !! 1%nat) as [[|c' t]|]; auto.
    by case_decide.
  - intros Hlack. by rewrite verdict_no_token.
Qed.

(** C1, amended: a header that is not empty and has no second piece to
    read (it holds no space, or its first space is its last character or is
    followed at once by another space) is answered 401 with the error
    "Invalid authorization header format"; it is neither allowed nor
    answered as an invalid token, whatever the secret. *)
Theorem tokenless_header_malformed w h :
  headers (req w) !! "authorization" = Some h → h ≠ "" →
  lacks_token h = true →
  authMiddleware w
  = json (error "Invalid authorization header format") (status 401 w)
  ∧ outcome w MalformedHeader
  ∧ ¬ outcome w Allowed
  ∧ ¬ outcome w InvalidToken.
Proof.
  intros Hh Hne Hlack.
  assert (outcome w MalformedHeader) as Hrun
    by by apply (malformed_iff_lacks_token w h).
  split; [|split; [done|split]].
  - rewrite Hrun. symmetry. apply respond_calls.
  - intros Hbad. by pose proof (outcome_unique _ _ _ Hrun Hbad).
  - intros Hbad. by pose proof (outcome_unique _ _ _ Hrun Hbad).
Qed.

(** C2, amended: a header that is not empty cuts in exactly one way into
    pieces that hold no space and are joined by single spaces (so two
    spaces in a row enclose an empty piece, and a tab separates nothing).
    The gate reads the second of these pieces: when it is absent or empty
    the header is malformed, otherwise the piece is the token compared with
    the secret. *)
Theorem token_is_second_piece w h :
  headers (req w) !! "authorization" = Some h → h ≠ "" →
  ∃ pieces,
    h = join " " pieces
    ∧ Forall (λ p, occurs " " p = false) pieces
    ∧ (∀ ps, ps ≠ [] → Forall (λ p, occurs " " p = false) ps →
             h = join " " ps → ps = pieces)
    ∧ outcome w
        match pieces !! 1%nat with
        | None | Some "" => MalformedHeader
        | Some t =>
            if decide (env w !! "API_KEY" = Some t) then Allowed
            else InvalidToken
        end.
Proof.
  intros Hh Hne. exists (Js.split " " h).
  split; [by rewrite join_split|].
  split; [apply split_pieces_free|]. split.
  - intros ps Hnil Hfree ->. by rewrite split_join.
  - apply outcome_verdict. rewrite Hh. by destruct h.
Qed.

End header_shape.

(** ** The gate on concrete requests *)

Example split_empty : Js.split " " "" = [""].
Proof. reflexivity. Qed.

Example split_two_blanks :
  Js.split " " "Bearer  s3cr3t" = ["Bearer"; ""; "s3cr3t"].
Proof. reflexivity. Qed.

Example split_tab : Js.split " " tab_header = [tab_header].
Proof. reflexivity. Qed.

Lemma computed_outcome (w : World) (o : Outcome) :
  verdict (headers (req w) !! "authorization") (env w !! "API_KEY") = o →
  outcome w o.
Proof. intros <-. by apply outcome_verdict. Qed.

(** C1 as the spec words it fails: a header of three tokens is judged by its
    second one, so it is allowed when that is the secret and is an invalid
    token otherwise; it is not malformed. *)
Lemma three_tokens_not_malformed :
  headers (req three_piece_world) !! "authorization"
  = Some "Bearer s3cr3t extra"
  ∧ whitespace_tokens "Bearer s3cr3t extra" = ["Bearer"; "s3cr3t"; "extra"]
  ∧ outcome three_piece_world Allowed
  ∧ ¬ outcome three_piece_world MalformedHeader
  ∧ headers (req three_piece_wrong_world) !! "authorization"
    = Some "Bearer wrong extra"
  ∧ outcome three_piece_wrong_world InvalidToken.
Proof.
  assert (outcome three_piece_world Allowed) as Hrun
    by (apply computed_outcome; vm_compute; reflexivity).
  split; [vm_compute; reflexivity|].
  split; [vm_compute; reflexivity|].
  split; [done|]. split.
  - intros Hbad. by pose proof (outcome_unique _ _ _ Hrun Hbad).
  - split; [vm_compute; reflexivity|].
    apply computed_outcome; vm_compute; reflexivity.
Qed.

(** C2 as the spec words it fails: in "Bearer<TAB>s3cr3t" and in
    "Bearer  s3cr3t" (two blanks) the second whitespace-separated token is
    the secret, yet the gate reads no token and answers that the header is
    malformed. *)
Lemma whitespace_token_not_read :
  headers (req tab_world) !! "authorization" = Some tab_header
  ∧ env tab_world !! "API_KEY" = Some "s3cr3t"
  ∧ whitespace_tokens tab_header !! 1%nat = Some "s3cr3t"
  ∧ outcome tab_world MalformedHeader
  ∧ ¬ outcome tab_world Allowed
  ∧ headers (req two_blanks_world) !! "authorization" = Some "Bearer  s3cr3t"
  ∧ whitespace_tokens "Bearer  s3cr3t" !! 1%nat = Some "s3cr3t"
  ∧ outcome two_blanks_world MalformedHeader
  ∧ ¬ outcome two_blanks_world Allowed.
Proof.
  assert (outcome tab_world MalformedHeader) as Htab
    by (apply computed_outcome; vm_compute; reflexivity).
  assert (outcome two_blanks_world MalformedHeader) as Hblanks
    by (apply computed_outcome; vm_compute; reflexivity).
  assert (∀ w, outcome w MalformedHeader → ¬ outcome w Allowed) as Hexcl.
  { intros w Hrun Hbad. by pose proof (outcome_unique _ _ _ Hrun Hbad). }
  split; [vm_compute; reflexivity|]. split; [vm_compute; reflexivity|].
  split; [vm_compute; reflexivity|]. split; [exact Htab|].
  split; [exact (Hexcl _ Htab)|].
  split; [vm_compute; reflexivity|]. split; [vm_compute; reflexivity|].
  split; [exact Hblanks|]. exact (Hexcl _ Hblanks).
Qed.

(** ** The theorems at concrete requests *)

Lemma matching_token_allowed_witness :
  headers (req bearer_world) !! "authorization" = Some "Bearer s3cr3t"
  ∧ Js.index (Js.split " " "Bearer s3cr3t") 1 = Some "s3cr3t"
  ∧ "s3cr3t" ≠ ""
  ∧ env bearer_world !! "API_KEY" = Some "s3cr3t"
  ∧ authMiddleware bearer_world = next bearer_world
  ∧ outcome bearer_world Allowed
  ∧ req (authMiddleware bearer_world) = req bearer_world
  ∧ calls (authMiddleware bearer_world) = calls bearer_world ++ [Next].
Proof.
  split; [vm_compute; reflexivity|]. split; [reflexivity|].
  split; [discriminate|]. split; [vm_compute; reflexivity|].
  apply (matching_token_allowed bearer_world "Bearer s3cr3t" "s3cr3t");
    [vm_compute; reflexivity | reflexivity | discriminate
    | vm_compute; reflexivity].
Defined.

Lemma other_token_forbidden_witness :
  headers (req wrong_world) !! "authorization" = Some "Bearer wrong"
  ∧ Js.index (Js.split " " "Bearer wrong") 1 = Some "wrong"
  ∧ "wrong" ≠ ""
  ∧ env wrong_world !! "API_KEY" ≠ Some "wrong"
  ∧ authMiddleware wrong_world
    = json (error "Invalid API key") (status 403 wrong_world)
  ∧ outcome wrong_world InvalidToken.
Proof.
  assert (env wrong_world !! "API_KEY" ≠ Some "wrong") as Hkey
    by (vm_compute; discriminate).
  split; [vm_compute; reflexivity|]. split; [reflexivity|].
  split; [discriminate|]. split; [exact Hkey|].
  apply (other_token_forbidden wrong_world "Bearer wrong" "wrong");
    [vm_compute; reflexivity | reflexivity | discriminate | exact Hkey].
Defined.

Lemma missing_header_rejected_witness :
  headers (req no_header_world) !! "authorization" = None
  ∧ authMiddleware no_header_world
    = json (error "Missing authorization header") (status 401 no_header_world)
  ∧ outcome no_header_world MissingHeader
  ∧ ∀ e, calls (authMiddleware {| env := e; req := req no_header_world;
                                  calls := calls no_header_world |})
         = calls (authMiddleware no_header_world).
Proof.
  split; [vm_compute; reflexivity|].
  apply (missing_header_rejected no_header_world). vm_compute; reflexivity.
Defined.

Lemma empty_header_is_missing_witness :
  headers (req empty_header_world) !! "authorization" = Some ""
  ∧ authMiddleware empty_header_world
    = json (error "Missing authorization header")
        (status 401 empty_header_world)
  ∧ outcome empty_header_world MissingHeader
  ∧ ¬ outcome empty_header_world MalformedHeader.
Proof.
  split; [vm_compute; reflexivity|].
  apply (empty_header_is_missing empty_header_world). vm_compute; reflexivity.
Defined.

Lemma no_secret_rejects_all_witness :
  env no_secret_world !! "API_KEY" = None
  ∧ ¬ outcome no_secret_world Allowed
  ∧ (outcome no_secret_world MissingHeader
     ∨ outcome no_secret_world MalformedHeader
     ∨ outcome no_secret_world InvalidToken)
  ∧ next_calls (authMiddleware no_secret_world) = next_calls no_secret_world.
Proof.
  split; [vm_compute; reflexivity|].
  apply (no_secret_rejects_all no_secret_world). vm_compute; reflexivity.
Defined.

Lemma same_inputs_same_outcome_witness :
  headers (req bearer_world) !! "authorization"
  = headers (req busy_world) !! "authorization"
  ∧ env bearer_world !! "API_KEY" = env busy_world !! "API_KEY"
  ∧ (∃ o, outcome bearer_world o ∧ outcome busy_world o
          ∧ calls (authMiddleware bearer_world)
            = calls bearer_world ++ performs o
          ∧ calls (authMiddleware busy_world)
            = calls busy_world ++ performs o)
  ∧ env (authMiddleware bearer_world) = env bearer_world
  ∧ req (authMiddleware bearer_world) = req bearer_world
  ∧ env (authMiddleware busy_world) = env busy_world
  ∧ req (authMiddleware busy_world) = req busy_world.
Proof.
  split; [vm_compute; reflexivity|]. split; [vm_compute; reflexivity|].
  apply (same_inputs_same_outcome bearer_world busy_world);
    vm_compute; reflexivity.
Defined.

Lemma tokenless_header_malformed_witness :
  headers (req bare_world) !! "authorization" = Some "s3cr3t"
  ∧ "s3cr3t" ≠ ""
  ∧ lacks_token "s3cr3t" = true
  ∧ authMiddleware bare_world
    = json (error "Invalid authorization header format") (status 401 bare_world)
  ∧ outcome bare_world MalformedHeader
  ∧ ¬ outcome bare_world Allowed
  ∧ ¬ outcome bare_world InvalidToken.
Proof.
  split; [vm_compute; reflexivity|]. split; [discriminate|].
  split; [reflexivity|].
  apply (tokenless_header_malformed bare_world "s3cr3t");
    [vm_compute; reflexivity | discriminate | reflexivity].
Defined.

Lemma token_is_second_piece_witness :
  headers (req two_blanks_world) !! "authorization" = Some "Bearer  s3cr3t"
  ∧ "Bearer  s3cr3t" ≠ ""
  ∧ ∃ pieces,
      "Bearer  s3cr3t" = join " " pieces
      ∧ Forall (λ p, occurs " " p = false) pieces
      ∧ (∀ ps, ps ≠ [] → Forall (λ p, occurs " " p = false) ps →
               "Bearer  s3cr3t" = join " " ps → ps = pieces)
      ∧ outcome two_blanks_world
          match pieces !! 1%nat with
          | None | Some "" => MalformedHeader
          | Some t =>
              if decide (env two_blanks_world !! "API_KEY" = Some t)
              then Allowed else InvalidToken
          end.
Proof.
  split; [vm_compute; reflexivity|]. split; [discriminate|].
  apply (token_is_second_piece two_blanks_world "Bearer  s3cr3t");
    [vm_compute; reflexivity | discriminate].
Defined.

(** * What the gate reads of a header, and what it never lets through *)

Section reading.
Implicit Types (w : World) (o : Outcome) (h a b t s rest : string).
#[local] Arguments Js.split : simpl never.

Lemma append_empty_r s : s +:+ "" = s.
Proof.
  induction s as [|c s IH]; [done|].
  change (String c (s +:+ "") = String c s). by rewrite IH.
Qed.

Lemma verdict_second h (secret : option string) :
  h ≠ "" →
  verdict (Some h) secret
  = match Js.split " " h !! 1%nat with
    | None | Some "" => MalformedHeader
    | Some t => if decide (secret = Some t) then Allowed else InvalidToken
    end.
Proof. by destruct h. Qed.

Lemma append_sep_not_empty a rest : a +:+ String " " rest ≠ "".
Proof. by destruct a. Qed.

Lemma second_after_first_word a rest :
  occurs " " a = false →
  Js.split " " (a +:+ String " " rest) !! 1%nat = head (Js.split " " rest).
Proof. intros Ha. rewrite split_app_sep by done. by destruct (Js.split " " rest). Qed.

Lemma head_split_word t rest :
  occurs " " t = false → rest = "" ∨ (∃ r, rest = String " " r) →
  head (Js.split " " (t +:+ rest)) = Some t.
Proof.
  intros Ht [->|[r ->]].
  - by rewrite append_empty_r, split_free.
  - by rewrite split_app_sep.
Qed.

(** X1: the requests the gate lets through are exactly those whose header
    is a first word without spaces (of any spelling, possibly empty), one
    space, the secret itself, and then either nothing or a space followed by
    anything; the secret must be non-empty and hold no space. *)
Theorem allowed_iff_shape w h :
  headers (req w) !! "authorization" = Some h →
  outcome w Allowed
  ↔ ∃ s a rest,
      env w !! "API_KEY" = Some s
      ∧ s ≠ "" ∧ occurs " " s = false ∧ occurs " " a = false
      ∧ h = a +:+ " " +:+ s +:+ rest
      ∧ (rest = "" ∨ ∃ r, rest = " " +:+ r).
Proof.
  intros Hh. rewrite outcome_verdict, Hh. split.
  - intros Hv. destruct (decide (h = "")) as [->|Hne]; [done|].
    rewrite verdict_second in Hv by done.
    pose proof (join_split " " h) as Hjoin.
    pose proof (split_pieces_free " " h) as Hfree.
    destruct (Js.split " " h) as [|a [|t ps]]; [done..|]. simpl in Hv.
    apply Forall_cons in Hfree as [Ha Hfree].
    apply Forall_cons in Hfree as [Ht _].
    destruct t as [|c t]; [done|]. case_decide as Hkey; [|done].
    set (s := String c t) in *.
    exists s, a.
    destruct ps as [|p ps].
    + exists "". rewrite append_empty_r. repeat split; auto.
    + exists (String " " (join " " (p :: ps))). repeat split; eauto.
  - intros (s & a & rest & Hkey & Hne & Hs & Ha & -> & Hrest).
    change (a +:+ " " +:+ s +:+ rest) with (a +:+ String " " (s +:+ rest)).
    rewrite verdict_second by apply append_sep_not_empty.
    rewrite second_after_first_word, (head_split_word s rest) by done.
    destruct s; [done|]. by rewrite decide_True.
Qed.

(** X2: a secret that is the empty string, or that holds a space, matches
    no request at all: under such an [API_KEY] every run is a rejection and
    [next] is never called. *)
Theorem unmatchable_secret w s :
  env w !! "API_KEY" = Some s →
  s = "" ∨ occurs " " s = true →
  ¬ outcome w Allowed
  ∧ next_calls (authMiddleware w) = next_calls w.
Proof.
  intros Hkey Hbad.
  assert (verdict (headers (req w) !! "authorization") (Some s) ≠ Allowed)
    as Hv.
  { destruct (headers (req w) !! "authorization") as [h|]; [|done].
    destruct (decide (h = "")) as [->|Hne]; [done|].
    rewrite verdict_second by done.
    pose proof (split_pieces_free " " h) as Hfree.
    destruct (Js.split " " h !! 1%nat) as [t|] eqn:Ht; [|done].
    destruct t as [|c t]; [done|]. case_decide as Heq; [|done].
    injection Heq as ->.
    rewrite Forall_lookup in Hfree. specialize (Hfree _ _ Ht).
    destruct Hbad as [?|Hsp]; [done|]. congruence. }
  split.
  - intros Ha%outcome_verdict. by rewrite Hkey in Ha.
  - rewrite authMiddleware_verdict, Hkey, next_calls_after.
    rewrite decide_False by done. lia.
Qed.

(** X3: the gate never looks at the scheme.  Two requests whose headers
    differ only in the first word (both without spaces; "Basic" for "Bearer",
    or no word at all) end in the same outcome under the same secret. *)
Theorem scheme_ignored w1 w2 a b rest o :
  occurs " " a = false → occurs " " b = false →
  headers (req w1) !! "authorization" = Some (a +:+ " " +:+ rest) →
  headers (req w2) !! "authorization" = Some (b +:+ " " +:+ rest) →
  env w1 !! "API_KEY" = env w2 !! "API_KEY" →
  outcome w1 o ↔ outcome w2 o.
Proof.
  intros Ha Hb H1 H2 Hkey.
  rewrite !outcome_verdict, H1, H2, Hkey.
  change (a +:+ " " +:+ rest) with (a +:+ String " " rest).
  change (b +:+ " " +:+ rest) with (b +:+ String " " rest).
  rewrite !verdict_second by apply append_sep_not_empty.
  by rewrite !second_after_first_word.
Qed.

(** X4: the gate never looks past the second piece.  Whatever follows the
    space after the token changes nothing: the outcome is that of the header
    cut off after the token. *)
Theorem trailing_text_ignored w1 w2 a t rest o :
  occurs " " a = false → occurs " " t = false →
  headers (req w1) !! "authorization" = Some (a +:+ " " +:+ t +:+ " " +:+ rest) →
  headers (req w2) !! "authorization" = Some (a +:+ " " +:+ t) →
  env w1 !! "API_KEY" = env w2 !! "API_KEY" →
  outcome w1 o ↔ outcome w2 o.
Proof.
  intros Ha Ht H1 H2 Hkey.
  rewrite !outcome_verdict, H1, H2, Hkey.
  change (a +:+ " " +:+ t +:+ " " +:+ rest)
    with (a +:+ String " " (t +:+ String " " rest)).
  change (a +:+ " " +:+ t) with (a +:+ String " " t).
  rewrite !verdict_second by apply append_sep_not_empty.
  rewrite !second_after_first_word by done.
  rewrite (head_split_word t (String " " rest)) by eauto.
  by rewrite split_free.
Qed.

(** X5: the header the deployment tool builds from its own key, [Bearer]
    followed by the key, passes the gate exactly when the server's [API_KEY]
    is that key, and is answered 403 otherwise - provided the key as printed
    is not empty and holds no space, and the header reaches the gate as
    built.  An unset key is printed as "undefined". *)
Theorem client_key_accepted w (client_env : gmap string string) k :
  template (client_env !! "HOT_UPDATER_API_KEY") = k →
  k ≠ "" → occurs " " k = false →
  headers (req w) !! "authorization" = commonHeaders client_env !! "Authorization" →
  (outcome w Allowed ↔ env w !! "API_KEY" = Some k)
  ∧ (outcome w InvalidToken ↔ env w !! "API_KEY" ≠ Some k).
Proof.
  intros Hk Hne Hfree Hh. unfold commonHeaders in Hh.
  rewrite lookup_singleton_eq, Hk in Hh.
  change ("Bearer " +:+ k) with ("Bearer" +:+ String " " k) in Hh.
  assert (verdict (Some ("Bearer" +:+ String " " k)) (env w !! "API_KEY")
          = if decide (env w !! "API_KEY" = Some k) then Allowed
            else InvalidToken) as Hv.
  { apply verdict_token; [|done]. unfold Js.index.
    rewrite split_app_sep by done. by rewrite split_free. }
  rewrite !outcome_verdict, Hh, Hv.
  case_decide; split; split; done.
Qed.

(** X7: the gate answers 401 (missing or malformed header) exactly when
    the header is absent or has no second piece to read.  So a 401 never
    depends on the secret, and a request whose header carries a token is
    either let through or answered 403. *)
Theorem unauthenticated_iff_no_token w :
  outcome w MissingHeader ∨ outcome w MalformedHeader
  ↔ ∀ h, headers (req w) !! "authorization" = Some h → lacks_token h = true.
Proof.
  destruct (headers (req w) !! "authorization") as [h|] eqn:Hh.
  - destruct (decide (h = "")) as [->|Hne].
    + split; [by intros _ ? [= <-]|]. intros _. left.
      apply outcome_verdict. by rewrite Hh.
    + rewrite (malformed_iff_lacks_token w h) by done. split.
      * intros [Hmiss|Hlack]; [|by intros ? [= <-]].
        apply outcome_verdict in Hmiss. rewrite Hh in Hmiss.
        rewrite verdict_second in Hmiss by done.
        destruct (Js.split " " h !! 1%nat) as [[|c t]|]; try done.
        by case_decide.
      * intros Hall. right. by apply Hall.
  - split; [by intros _ ? [=]|]. intros _. left.
    apply outcome_verdict. by rewrite Hh.
Qed.

End reading.

(** ** Cutting and joining *)

Lemma split_length (sep : ascii) (s : string) :
  length (Js.split sep s) = S (count_char sep s).
Proof.
  induction s as [|c s IH]; simpl; [done|].
  case_bool_decide; simpl; [by rewrite IH|].
  pose proof (split_not_nil sep s).
  destruct (Js.split sep s); [done|]. simpl in *. lia.
Qed.

(** X6: cutting a string at a separator loses nothing and adds nothing:
    joining the pieces with the separator gives the string back, no piece
    holds the separator, and there is one piece more than there are
    separators in the string (so the empty string gives one empty piece). *)
Theorem split_round_trip (sep : ascii) (s : string) :
  join sep (Js.split sep s) = s
  ∧ Forall (λ p, occurs sep p = false) (Js.split sep s)
  ∧ length (Js.split sep s) = S (count_char sep s).
Proof.
  split; [apply join_split|]. split; [apply split_pieces_free|].
  apply split_length.
Qed.

(** ** These theorems at concrete requests *)

Lemma allowed_iff_shape_witness :
  headers (req three_piece_world) !! "authorization"
  = Some "Bearer s3cr3t extra"
  ∧ (outcome three_piece_world Allowed
     ↔ ∃ s a rest,
         env three_piece_world !! "API_KEY" = Some s
         ∧ s ≠ "" ∧ occurs " " s = false ∧ occurs " " a = false
         ∧ "Bearer s3cr3t extra" = a +:+ " " +:+ s +:+ rest
         ∧ (rest = "" ∨ ∃ r, rest = " " +:+ r)).
Proof.
  split; [vm_compute; reflexivity|].
  apply (allowed_iff_shape three_piece_world "Bearer s3cr3t extra").
  vm_compute; reflexivity.
Defined.

Lemma unmatchable_secret_witness :
  env spaced_secret_world !! "API_KEY" = Some "my key"
  ∧ ("my key" = "" ∨ occurs " " "my key" = true)
  ∧ ¬ outcome spaced_secret_world Allowed
  ∧ next_calls (authMiddleware spaced_secret_world)
    = next_calls spaced_secret_world.
Proof.
  split; [vm_compute; reflexivity|]. split; [right; reflexivity|].
  apply (unmatchable_secret spaced_secret_world "my key");
    [vm_compute; reflexivity | right; reflexivity].
Defined.

Lemma scheme_ignored_witness :
  occurs " " "Basic" = false ∧ occurs " " "Bearer" = false
  ∧ headers (req basic_world) !! "authorization"
    = Some ("Basic" +:+ " " +:+ "s3cr3t")
  ∧ headers (req bearer_world) !! "authorization"
    = Some ("Bearer" +:+ " " +:+ "s3cr3t")
  ∧ env basic_world !! "API_KEY" = env bearer_world !! "API_KEY"
  ∧ (outcome basic_world Allowed ↔ outcome bearer_world Allowed).
Proof.
  split; [reflexivity|]. split; [reflexivity|].
  split; [vm_compute; reflexivity|]. split; [vm_compute; reflexivity|].
  split; [vm_compute; reflexivity|].
  apply (scheme_ignored basic_world bearer_world "Basic" "Bearer" "s3cr3t");
    [reflexivity | reflexivity | vm_compute; reflexivity
    | vm_compute; reflexivity | vm_compute; reflexivity].
Defined.

Lemma trailing_text_ignored_witness :
  occurs " " "Bearer" = false ∧ occurs " " "s3cr3t" = false
  ∧ headers (req three_piece_world) !! "authorization"
    = Some ("Bearer" +:+ " " +:+ "s3cr3t" +:+ " " +:+ "extra")
  ∧ headers (req bearer_world) !! "authorization"
    = Some ("Bearer" +:+ " " +:+ "s3cr3t")
  ∧ env three_piece_world !! "API_KEY" = env bearer_world !! "API_KEY"
  ∧ (outcome three_piece_world Allowed ↔ outcome bearer_world Allowed).
Proof.
  split; [reflexivity|]. split; [reflexivity|].
  split; [vm_compute; reflexivity|]. split; [vm_compute; reflexivity|].
  split; [vm_compute; reflexivity|].
  apply (trailing_text_ignored three_piece_world bearer_world
           "Bearer" "s3cr3t" "extra");
    [reflexivity | reflexivity | vm_compute; reflexivity
    | vm_compute; reflexivity | vm_compute; reflexivity].
Defined.

Lemma client_key_accepted_witness :
  template (deploy_env !! "HOT_UPDATER_API_KEY") = "s3cr3t"
  ∧ "s3cr3t" ≠ "" ∧ occurs " " "s3cr3t" = false
  ∧ headers (req bearer_world) !! "authorization"
    = commonHeaders deploy_env !! "Authorization"
  ∧ (outcome bearer_world Allowed
     ↔ env bearer_world !! "API_KEY" = Some "s3cr3t")
  ∧ (outcome bearer_world InvalidToken
     ↔ env bearer_world !! "API_KEY" ≠ Some "s3cr3t").
Proof.
  split; [vm_compute; reflexivity|]. split; [discriminate|].
  split; [reflexivity|]. split; [vm_compute; reflexivity|].
  apply (client_key_accepted bearer_world deploy_env "s3cr3t");
    [vm_compute; reflexivity | discriminate | reflexivity
    | vm_compute; reflexivity].
Defined.
